(** * The WebRTC output sink of libcamera-apps

    A shallow embedding of [output/webrtc_output.cpp], [output/webrtc_output.hpp]
    and [libs/eyecam_net.h].

    The native transport library (libeyecam_net) is an opaque collaborator:
    it is represented by a record of oracles giving the value each native
    call returns.  Every call that leaves the sink (native calls, log
    requests, [std::exit]) is appended to a chronological trace, and the
    C++ code is written in a small monad that threads this trace and stops
    at [std::exit]. *)

From Stdlib Require Import ZArith List String Ascii Bool Lia.
From Stdlib Require Import DecimalString.
Import ListNotations.

Local Open Scope string_scope.
Local Open Scope list_scope.
Local Open Scope Z_scope.

(** ** Machine integers *)

Module Int.

Definition modulus64 : Z := 2 ^ 64.

(** The values of [int64_t]. *)
Definition int64_range (z : Z) : Prop := - 2 ^ 63 <= z < 2 ^ 63.

(** The values of [uint64_t]. *)
Definition uint64_range (z : Z) : Prop := 0 <= z < modulus64.

(** Conversion of an integer value to [uint64_t]: reduction modulo 2^64. *)
Definition to_uint64 (z : Z) : Z := z mod modulus64.

(** Subtraction of two [uint64_t] operands. *)
Definition sub_uint64 (a b : Z) : Z := (a - b) mod modulus64.

End Int.

Import Int.

(** ** What the sink does to the outside world *)

(** [const void *]: opaque addresses. *)
Definition pointer := Z.

(** One entry per interaction with a collaborator, in the order the calls
    are made.  Native calls carry their arguments and the value returned. *)
Inductive event : Type :=
| EInit (ret : pointer)
| EDeinit (state : pointer)
| EWaitForConnection (state : pointer) (name : string) (ret : Z)
| EWriteVideo (state : pointer) (len : Z) (data : pointer) (duration_us : Z) (ret : Z)
| ELog (level : Z) (text : string)
| ELogError (text : string)
| EExit (status : Z).

(** The [extern "C"] block of [eyecam_net.h]: the values the native
    library returns.  [eyecam_net_init] and [eyecam_net_wait_for_connection]
    are called at most once per run; [eyecam_net_write_video] is called once
    per frame and its answer may depend on everything that happened before.
    The pointer returned by [eyecam_net_deinit] is never read. *)
Record eyecam_net_lib : Type := {
  eyecam_net_init : pointer;
  eyecam_net_wait_for_connection : pointer -> string -> Z;
  eyecam_net_write_video : list event -> pointer -> Z -> pointer -> Z -> Z
}.

(** ** The monad of the C++ code *)

Inductive outcome (A : Type) : Type :=
| Returned (a : A)
| Exited (status : Z).
Arguments Returned {A} a.
Arguments Exited {A} status.

Definition proc (A : Type) : Type := list event -> outcome A * list event.

Definition ret {A : Type} (a : A) : proc A := fun tr => (Returned a, tr).

Definition bind {A B : Type} (m : proc A) (k : A -> proc B) : proc B :=
  fun tr =>
    match m tr with
    | (Returned a, tr') => k a tr'
    | (Exited status, tr') => (Exited status, tr')
    end.

Declare Scope proc_scope.
Delimit Scope proc_scope with proc.
Notation "x <- m ;; k" := (bind m (fun x => k))
  (at level 61, m at next level, right associativity) : proc_scope.
Notation "m ;; k" := (bind m (fun _ => k))
  (at level 61, right associativity) : proc_scope.
Local Open Scope proc_scope.

Definition emit (e : event) : proc unit := fun tr => (Returned tt, tr ++ [e]).

(** [std::exit(status)]: nothing after it runs. *)
Definition std_exit {A : Type} (status : Z) : proc A :=
  fun tr => (Exited status, tr ++ [EExit status]).

(** Modelled from the spec: the LOG and LOG_ERROR macros of the surrounding
    pipeline are not part of these sources; logging is delegated to an external
    facility offering leveled informational and error messages, so each use
    is recorded as a request to that facility. *)
Definition LOG (level : Z) (text : string) : proc unit := emit (ELog level text).
Definition LOG_ERROR (text : string) : proc unit := emit (ELogError text).

(** [operator<<] on an [int]. *)
Definition show_int (z : Z) : string := NilZero.string_of_int (Z.to_int z).

(** [std::string::c_str()] as the callee reads it: up to the first NUL. *)
Fixpoint c_str (s : string) : string :=
  match s with
  | EmptyString => EmptyString
  | String c s' => if Ascii.eqb c zero then EmptyString else String c (c_str s')
  end.

(** ** libs/eyecam_net.h *)

Record EyecamNet : Type := { state : pointer }.

Record VideoOptions : Type := { codec : string; webrtc : string }.

(** ** output/webrtc_output.hpp *)

Record WebrtcOutput : Type := {
  net : EyecamNet;
  last_timestamp_us : Z          (* uint64_t *)
}.

(** The arguments of one [outputBuffer] call. *)
Record frame : Type := {
  mem : pointer;
  size : Z;                      (* size_t *)
  timestamp_us : Z;              (* int64_t *)
  flags : Z                      (* uint32_t *)
}.

Section Sink.

Variable lib : eyecam_net_lib.

(** [EyecamNet() { state = eyecam_net_init(); }] *)
Definition EyecamNet_ctor : proc EyecamNet :=
  let s := eyecam_net_init lib in
  emit (EInit s) ;;
  ret {| state := s |}.

(** [~EyecamNet() { eyecam_net_deinit(state); }] *)
Definition EyecamNet_dtor (this : EyecamNet) : proc unit :=
  emit (EDeinit (state this)).

Definition call_wait_for_connection (s : pointer) (name : string) : proc Z :=
  let r := eyecam_net_wait_for_connection lib s name in
  emit (EWaitForConnection s name r) ;;
  ret r.

Definition call_write_video (s : pointer) (len : Z) (data : pointer)
    (duration_us : Z) : proc Z :=
  fun tr =>
    let r := eyecam_net_write_video lib tr s len data duration_us in
    (Returned r, tr ++ [EWriteVideo s len data duration_us r]).

(** ** output/webrtc_output.cpp *)

(** [WebrtcOutput::WebrtcOutput(VideoOptions const *options)].  The member
    initialisers [net()] and [last_timestamp_us(0)] run before the body.
    The base-class constructor [Output(options)] belongs to the surrounding
    pipeline and leaves no event here. *)
Definition WebrtcOutput_ctor (options : VideoOptions) : proc WebrtcOutput :=
  n <- EyecamNet_ctor ;;
  let this := {| net := n; last_timestamp_us := 0 |} in
  if negb (String.eqb (codec options) "h264") then
    LOG_ERROR "Webrtc only works with h264 for now. Sorry!" ;;
    ret this
  else
    LOG 1 ("Waiting for RTC connection (namespace: " ++ webrtc options ++ ")")%string ;;
    connected <- call_wait_for_connection (state (net this)) (c_str (webrtc options)) ;;
    LOG 1 ("Connected!? " ++ show_int connected)%string ;;
    if connected =? 0 then
      LOG_ERROR "WebRTC connection failed. Shutting down." ;;
      std_exit 51
    else
      ret this.

(** [void WebrtcOutput::outputBuffer(void *mem, size_t size,
    int64_t timestamp_us, uint32_t flags)].  In
    [timestamp_us - last_timestamp_us] the [int64_t] operand is converted
    to [uint64_t] and the subtraction is unsigned; the assignment to
    [last_timestamp_us] converts as well. *)
Definition outputBuffer (this : WebrtcOutput) (f : frame) : proc WebrtcOutput :=
  success <- call_write_video (state (net this)) (size f) (mem f)
               (sub_uint64 (to_uint64 (timestamp_us f)) (last_timestamp_us this)) ;;
  let this' := {| net := net this; last_timestamp_us := to_uint64 (timestamp_us f) |} in
  (if success =? 0 then LOG_ERROR "Failed to send samples?" else ret tt) ;;
  ret this'.

(** The implicit destructor: destroys the member [net]. *)
Definition WebrtcOutput_dtor (this : WebrtcOutput) : proc unit :=
  EyecamNet_dtor (net this).

(** The pipeline delivers the frames one after the other. *)
Fixpoint deliver (this : WebrtcOutput) (frames : list frame) : proc WebrtcOutput :=
  match frames with
  | [] => ret this
  | f :: rest => this' <- outputBuffer this f ;; deliver this' rest
  end.

(** One streaming run: construction, the frames, destruction. *)
Definition lifecycle (options : VideoOptions) (frames : list frame) : proc unit :=
  this <- WebrtcOutput_ctor options ;;
  this' <- deliver this frames ;;
  WebrtcOutput_dtor this'.

End Sink.


(** ** The earlier variant of the constructor (the second file of the
    sources): it does not look at [connected] after logging it. *)

Module Earlier.

Definition WebrtcOutput_ctor (lib : eyecam_net_lib) (options : VideoOptions)
    : proc WebrtcOutput :=
  n <- EyecamNet_ctor lib ;;
  let this := {| net := n; last_timestamp_us := 0 |} in
  if negb (String.eqb (codec options) "h264") then
    LOG_ERROR "Webrtc only works with h264 for now. Sorry!" ;;
    ret this
  else
    LOG 1 ("Waiting for RTC connection (namespace: " ++ webrtc options ++ ")")%string ;;
    connected <- call_wait_for_connection lib (state (net this)) (c_str (webrtc options)) ;;
    LOG 1 ("Connected!? " ++ show_int connected)%string ;;
    ret this.

Definition lifecycle (lib : eyecam_net_lib) (options : VideoOptions)
    (frames : list frame) : proc unit :=
  this <- WebrtcOutput_ctor lib options ;;
  this' <- deliver lib this frames ;;
  WebrtcOutput_dtor this'.

End Earlier.

(** ** Observations on traces *)

Definition is_init (e : event) : bool :=
  match e with EInit _ => true | _ => false end.

Definition is_deinit (e : event) : bool :=
  match e with EDeinit _ => true | _ => false end.

Definition is_wait (e : event) : bool :=
  match e with EWaitForConnection _ _ _ => true | _ => false end.

Definition is_write (e : event) : bool :=
  match e with EWriteVideo _ _ _ _ _ => true | _ => false end.

Definition is_exit (e : event) : bool :=
  match e with EExit _ => true | _ => false end.

(** How many events of a kind a trace holds. *)
Definition count (p : event -> bool) (tr : list event) : nat :=
  List.length (filter p tr).

(** The [duration_us] arguments of the [eyecam_net_write_video] calls. *)
Definition write_durations (tr : list event) : list Z :=
  flat_map (fun e => match e with EWriteVideo _ _ _ d _ => [d] | _ => [] end) tr.

(** The [(data, len)] arguments of the [eyecam_net_write_video] calls. *)
Definition write_payloads (tr : list event) : list (pointer * Z) :=
  flat_map (fun e => match e with EWriteVideo _ len data _ _ => [(data, len)] | _ => [] end) tr.

(** The sessions the [eyecam_net_write_video] calls are made on. *)
Definition write_sessions (tr : list event) : list pointer :=
  flat_map (fun e => match e with EWriteVideo s _ _ _ _ => [s] | _ => [] end) tr.

(** What one [outputBuffer] call may leave in the trace. *)
Definition frame_event (e : event) : bool :=
  match e with
  | EWriteVideo _ _ _ _ _ => true
  | ELogError _ => true
  | _ => false
  end.

(** A run from an empty history. *)
Definition run {A : Type} (m : proc A) : outcome A * list event := m [].

(** Following the spec's words: the duration of frame n is t_n - t_(n-1),
    the timestamp before the first frame being [prev]. *)
Fixpoint spec_durations (prev : Z) (ts : list Z) : list Z :=
  match ts with
  | [] => []
  | t :: rest => (t - prev) :: spec_durations t rest
  end.

(** Timestamps that never decrease, starting from [prev]. *)
Fixpoint nondecreasing_from (prev : Z) (ts : list Z) : Prop :=
  match ts with
  | [] => True
  | t :: rest => prev <= t /\ nondecreasing_from t rest
  end.

(** ** Some native libraries and inputs *)

(** A peer joins and every write succeeds. *)
Definition lib_connected : eyecam_net_lib :=
  {| eyecam_net_init := 4096;
     eyecam_net_wait_for_connection := fun _ _ => 1;
     eyecam_net_write_video := fun _ _ _ _ _ => 1 |}.

(** No peer joins. *)
Definition lib_refused : eyecam_net_lib :=
  {| eyecam_net_init := 4096;
     eyecam_net_wait_for_connection := fun _ _ => 0;
     eyecam_net_write_video := fun _ _ _ _ _ => 1 |}.

(** A peer joins, and every write fails. *)
Definition lib_lossy : eyecam_net_lib :=
  {| eyecam_net_init := 4096;
     eyecam_net_wait_for_connection := fun _ _ => 1;
     eyecam_net_write_video := fun _ _ _ _ _ => 0 |}.

(** A peer joins; the first write fails, the following ones succeed. *)
Definition lib_first_write_fails : eyecam_net_lib :=
  {| eyecam_net_init := 4096;
     eyecam_net_wait_for_connection := fun _ _ => 1;
     eyecam_net_write_video :=
       fun tr _ _ _ _ => if (count is_write tr =? 0)%nat then 0 else 1 |}.

Definition options_h264 : VideoOptions := {| codec := "h264"; webrtc := "eyecam" |}.
Definition options_mjpeg : VideoOptions := {| codec := "mjpeg"; webrtc := "eyecam" |}.

Definition frame_at (t : Z) : frame :=
  {| mem := 65536; size := 1024; timestamp_us := t; flags := 0 |}.

(** The state one [outputBuffer] call leaves behind. *)
Definition advance (this : WebrtcOutput) (f : frame) : WebrtcOutput :=
  {| net := net this; last_timestamp_us := to_uint64 (timestamp_us f) |}.

(** The events one [outputBuffer] call appends to the history [tr]. *)
Definition outputBuffer_events (lib : eyecam_net_lib) (this : WebrtcOutput)
    (f : frame) (tr : list event) : list event :=
  let d := sub_uint64 (to_uint64 (timestamp_us f)) (last_timestamp_us this) in
  let r := eyecam_net_write_video lib tr (state (net this)) (size f) (mem f) d in
  EWriteVideo (state (net this)) (size f) (mem f) d r
    :: (if r =? 0 then [ELogError "Failed to send samples?"] else []).

(** The adapter as the member initialisers leave it. *)
Definition constructed (lib : eyecam_net_lib) : WebrtcOutput :=
  {| net := {| state := eyecam_net_init lib |}; last_timestamp_us := 0 |}.

(** The value [eyecam_net_wait_for_connection] returns to the constructor. *)
Definition negotiation_result (lib : eyecam_net_lib) (options : VideoOptions) : Z :=
  eyecam_net_wait_for_connection lib (eyecam_net_init lib) (c_str (webrtc options)).

(** The events of the constructor up to the test of [connected]. *)
Definition negotiation_events (lib : eyecam_net_lib) (options : VideoOptions)
    : list event :=
  [ EInit (eyecam_net_init lib);
    ELog 1 ("Waiting for RTC connection (namespace: " ++ webrtc options ++ ")")%string;
    EWaitForConnection (eyecam_net_init lib) (c_str (webrtc options))
      (negotiation_result lib options);
    ELog 1 ("Connected!? " ++ show_int (negotiation_result lib options))%string ].

(** The adapter after a stream of frames. *)
Definition stream_end (this : WebrtcOutput) (frames : list frame) : WebrtcOutput :=
  fold_left advance frames this.

(** The events a stream of frames appends to the history [tr]. *)
Fixpoint deliver_events (lib : eyecam_net_lib) (this : WebrtcOutput)
    (frames : list frame) (tr : list event) : list event :=
  match frames with
  | [] => []
  | f :: rest =>
      let evs := outputBuffer_events lib this f tr in
      evs ++ deliver_events lib (advance this f) rest (tr ++ evs)
  end.

(** The events of a constructor that returns. *)
Definition construction_events (lib : eyecam_net_lib) (options : VideoOptions)
    : list event :=
  if String.eqb (codec options) "h264" then negotiation_events lib options
  else [ EInit (eyecam_net_init lib);
         ELogError "Webrtc only works with h264 for now. Sorry!" ].

(** A write the native library reported as failed. *)
Definition is_failed_write (e : event) : bool :=
  match e with EWriteVideo _ _ _ _ r => r =? 0 | _ => false end.

(** The error log of [outputBuffer]. *)
Definition is_send_error (e : event) : bool :=
  match e with
  | ELogError text => String.eqb text "Failed to send samples?"
  | _ => false
  end.

(** What a receiver can do with the durations: add them up, in
    [uint64_t], from a starting value. *)
Fixpoint accumulate (start : Z) (durations : list Z) : list Z :=
  match durations with
  | [] => []
  | d :: rest => let t := to_uint64 (start + d) in t :: accumulate t rest
  end.

Definition total (l : list Z) : Z := fold_right Z.add 0 l.

(** Two frames that differ at most in their flags. *)
Definition same_but_flags (f g : frame) : Prop :=
  mem f = mem g /\ size f = size g /\ timestamp_us f = timestamp_us g.

(** * Facts *)

(** ** 64-bit arithmetic *)

Lemma to_uint64_range z : uint64_range (to_uint64 z).
Proof. unfold uint64_range, to_uint64, modulus64. apply Z.mod_pos_bound. lia. Qed.

Lemma sub_uint64_range a b : uint64_range (sub_uint64 a b).
Proof. unfold uint64_range, sub_uint64, modulus64. apply Z.mod_pos_bound. lia. Qed.

Lemma to_uint64_nonneg z : 0 <= z < 2 ^ 63 -> to_uint64 z = z.
Proof. intros H. unfold to_uint64, modulus64. apply Z.mod_small. lia. Qed.

(** [(uint64_t)t - (uint64_t)p] only depends on the integer [t - p]. *)
Lemma sub_uint64_conv t p :
  sub_uint64 (to_uint64 t) (to_uint64 p) = (t - p) mod 2 ^ 64.
Proof. unfold sub_uint64, to_uint64, modulus64. symmetry. apply Zminus_mod. Qed.

Lemma sub_uint64_exact t p :
  int64_range t -> int64_range p -> p <= t ->
  sub_uint64 (to_uint64 t) (to_uint64 p) = t - p.
Proof.
  unfold int64_range. intros Ht Hp Hle.
  rewrite sub_uint64_conv. apply Z.mod_small. lia.
Qed.

Lemma sub_uint64_wrap t p :
  int64_range t -> int64_range p -> t < p ->
  sub_uint64 (to_uint64 t) (to_uint64 p) = t - p + 2 ^ 64.
Proof.
  unfold int64_range. intros Ht Hp Hlt.
  rewrite sub_uint64_conv.
  symmetry. apply (Z.mod_unique (t - p) (2 ^ 64) (-1) (t - p + 2 ^ 64)); lia.
Qed.

(** Subtracting from the same value is injective modulo [m]. *)
Lemma sub_mod_cancel m g a b :
  (g - a) mod m = (g - b) mod m -> a mod m = b mod m.
Proof.
  intros H.
  assert (Ha : a mod m = (g mod m - (g - a) mod m) mod m).
  { rewrite <- Zminus_mod. f_equal. lia. }
  assert (Hb : b mod m = (g mod m - (g - b) mod m) mod m).
  { rewrite <- Zminus_mod. f_equal. lia. }
  rewrite Ha, Hb, H. reflexivity.
Qed.

(** Two int64 values with the same uint64 conversion are equal. *)
Lemma to_uint64_inj a b :
  int64_range a -> int64_range b -> to_uint64 a = to_uint64 b -> a = b.
Proof.
  unfold int64_range, to_uint64, modulus64. intros Ha Hb E.
  assert (H : (a - b) mod 2 ^ 64 = 0).
  { rewrite Zminus_mod, E, Z.sub_diag. reflexivity. }
  apply Z.mod_divide in H; [| lia].
  destruct H as [k Hk]. nia.
Qed.


(** ** Observations distribute over concatenation *)

Lemma count_app p tr1 tr2 : count p (tr1 ++ tr2) = (count p tr1 + count p tr2)%nat.
Proof. unfold count. rewrite filter_app, length_app. reflexivity. Qed.

Lemma write_durations_app tr1 tr2 :
  write_durations (tr1 ++ tr2) = write_durations tr1 ++ write_durations tr2.
Proof. apply flat_map_app. Qed.

Lemma write_payloads_app tr1 tr2 :
  write_payloads (tr1 ++ tr2) = write_payloads tr1 ++ write_payloads tr2.
Proof. apply flat_map_app. Qed.

Lemma write_sessions_app tr1 tr2 :
  write_sessions (tr1 ++ tr2) = write_sessions tr1 ++ write_sessions tr2.
Proof. apply flat_map_app. Qed.

(** A trace made of frame events holds no other kind of event. *)
Lemma frame_events_count p evs :
  (forall e, frame_event e = true -> p e = false) ->
  forallb frame_event evs = true -> count p evs = 0%nat.
Proof.
  intros Hp. unfold count.
  induction evs as [| e evs IH]; simpl; intros H; [reflexivity |].
  apply andb_true_iff in H. destruct H as [He Hevs].
  rewrite (Hp e He). auto.
Qed.

Lemma last_cons_default (l : list Z) : forall a d, last (a :: l) d = last l a.
Proof.
  induction l as [| b l IH]; intros a d; [reflexivity |].
  change (last (a :: b :: l) d) with (last (b :: l) d).
  rewrite (IH b d), (IH b a). reflexivity.
Qed.

(** ** One call of [outputBuffer] *)

Section Runs.

Variable lib : eyecam_net_lib.

Lemma outputBuffer_run this f tr :
  outputBuffer lib this f tr =
    (Returned (advance this f), tr ++ outputBuffer_events lib this f tr).
Proof.
  unfold outputBuffer, outputBuffer_events, bind, call_write_video. cbv zeta.
  destruct (eyecam_net_write_video lib tr _ _ _ _ =? 0);
    unfold LOG_ERROR, emit, ret, advance; rewrite <- ?app_assoc; reflexivity.
Qed.

Lemma outputBuffer_events_frame this f tr :
  forallb frame_event (outputBuffer_events lib this f tr) = true.
Proof.
  unfold outputBuffer_events. cbv zeta.
  destruct (eyecam_net_write_video lib tr _ _ _ _ =? 0); reflexivity.
Qed.

Lemma outputBuffer_events_durations this f tr :
  write_durations (outputBuffer_events lib this f tr) =
    [sub_uint64 (to_uint64 (timestamp_us f)) (last_timestamp_us this)].
Proof.
  unfold outputBuffer_events. cbv zeta.
  destruct (eyecam_net_write_video lib tr _ _ _ _ =? 0); reflexivity.
Qed.

Lemma outputBuffer_events_payloads this f tr :
  write_payloads (outputBuffer_events lib this f tr) = [(mem f, size f)].
Proof.
  unfold outputBuffer_events. cbv zeta.
  destruct (eyecam_net_write_video lib tr _ _ _ _ =? 0); reflexivity.
Qed.

Lemma outputBuffer_events_sessions this f tr :
  write_sessions (outputBuffer_events lib this f tr) = [state (net this)].
Proof.
  unfold outputBuffer_events. cbv zeta.
  destruct (eyecam_net_write_video lib tr _ _ _ _ =? 0); reflexivity.
Qed.

(** ** A stream of frames *)

(** Delivering frames always returns; it appends only frame events, one
    write per frame, in the order of the frames, all on the session of the
    adapter, and keeps the session. *)
Lemma deliver_run frames : forall this tr,
  exists this' evs,
    deliver lib this frames tr = (Returned this', tr ++ evs)
    /\ net this' = net this
    /\ forallb frame_event evs = true
    /\ write_payloads evs = map (fun f => (mem f, size f)) frames
    /\ write_sessions evs = map (fun _ => state (net this)) frames.
Proof.
  induction frames as [| f rest IH]; intros this tr.
  - exists this, []. simpl. unfold ret. rewrite app_nil_r. auto.
  - destruct (IH (advance this f) (tr ++ outputBuffer_events lib this f tr))
      as (this' & evs & Hrun & Hnet & Hfe & Hpay & Hses).
    exists this', (outputBuffer_events lib this f tr ++ evs).
    cbn [deliver]. unfold bind. rewrite outputBuffer_run, Hrun, <- app_assoc.
    repeat split.
    + exact Hnet.
    + rewrite forallb_app, outputBuffer_events_frame, Hfe. reflexivity.
    + rewrite write_payloads_app, outputBuffer_events_payloads, Hpay. reflexivity.
    + rewrite write_sessions_app, outputBuffer_events_sessions, Hses. reflexivity.
Qed.

(** The durations of a stream, from a state whose baseline is the
    conversion of [prev]. *)
Lemma deliver_durations frames : forall this tr prev this' evs,
  last_timestamp_us this = to_uint64 prev ->
  deliver lib this frames tr = (Returned this', tr ++ evs) ->
  write_durations evs =
    map to_uint64 (spec_durations prev (map timestamp_us frames))
  /\ last_timestamp_us this' = to_uint64 (last (map timestamp_us frames) prev).
Proof.
  induction frames as [| f rest IH]; intros this tr prev this' evs Hprev Hrun.
  - simpl in Hrun. unfold ret in Hrun.
    injection Hrun as Hthis Htr.
    rewrite <- (app_nil_r tr) in Htr at 1. apply app_inv_head in Htr.
    subst. auto.
  - cbn [deliver] in Hrun. unfold bind in Hrun. rewrite outputBuffer_run in Hrun.
    destruct (deliver_run rest (advance this f) (tr ++ outputBuffer_events lib this f tr))
      as (this2 & evs2 & Hrun2 & _).
    rewrite Hrun2 in Hrun. injection Hrun as Hthis Htr.
    rewrite <- app_assoc in Htr. apply app_inv_head in Htr. subst this2 evs.
    destruct (IH (advance this f) _ (timestamp_us f) this' evs2 eq_refl Hrun2)
      as [Hd Hl].
    split.
    + rewrite write_durations_app, outputBuffer_events_durations, Hd, Hprev.
      simpl. unfold to_uint64 at 3. rewrite sub_uint64_conv. reflexivity.
    + rewrite Hl. cbn [map]. rewrite last_cons_default. reflexivity.
Qed.

(** On timestamps of [int64_t] that never decrease, the wrapped durations
    are the exact differences. *)
Lemma spec_durations_exact ts : forall prev,
  int64_range prev -> Forall int64_range ts -> nondecreasing_from prev ts ->
  map to_uint64 (spec_durations prev ts) = spec_durations prev ts.
Proof.
  induction ts as [| t rest IH]; intros prev Hp Hts Hmono; simpl; [reflexivity |].
  inversion Hts as [| ? ? Ht Hrest]; subst.
  destruct Hmono as [Hle Hmono].
  rewrite (IH t Ht Hrest Hmono). f_equal.
  unfold to_uint64, modulus64. unfold int64_range in *. apply Z.mod_small. lia.
Qed.

End Runs.

(** ** The constructor *)

Section Construction.

Variable lib : eyecam_net_lib.
Variable options : VideoOptions.

Lemma ctor_mismatch tr :
  codec options <> "h264" ->
  WebrtcOutput_ctor lib options tr =
    (Returned (constructed lib),
     tr ++ [EInit (eyecam_net_init lib);
            ELogError "Webrtc only works with h264 for now. Sorry!"]).
Proof.
  intros Hc. apply String.eqb_neq in Hc.
  unfold WebrtcOutput_ctor, EyecamNet_ctor, bind, emit, ret, LOG_ERROR. cbn.
  rewrite Hc. cbn. rewrite <- app_assoc. reflexivity.
Qed.

Lemma ctor_connected tr :
  codec options = "h264" -> negotiation_result lib options <> 0 ->
  WebrtcOutput_ctor lib options tr =
    (Returned (constructed lib), tr ++ negotiation_events lib options).
Proof.
  intros Hc Hr. apply String.eqb_eq in Hc. apply Z.eqb_neq in Hr.
  unfold negotiation_result in Hr.
  unfold WebrtcOutput_ctor, EyecamNet_ctor, call_wait_for_connection,
    bind, emit, ret, LOG, LOG_ERROR. cbn.
  rewrite Hc. cbn. rewrite Hr. rewrite <- !app_assoc. reflexivity.
Qed.

Lemma ctor_refused tr :
  codec options = "h264" -> negotiation_result lib options = 0 ->
  WebrtcOutput_ctor lib options tr =
    (Exited 51,
     tr ++ negotiation_events lib options
        ++ [ELogError "WebRTC connection failed. Shutting down."; EExit 51]).
Proof.
  intros Hc Hr. apply String.eqb_eq in Hc.
  unfold WebrtcOutput_ctor, EyecamNet_ctor, call_wait_for_connection,
    bind, emit, ret, LOG, LOG_ERROR, std_exit. cbn.
  rewrite Hc. cbn. unfold negotiation_events.
  unfold negotiation_result in *. rewrite Hr. cbn.
  rewrite <- !app_assoc. reflexivity.
Qed.

(** The three ways through the constructor. *)
Lemma ctor_cases :
  codec options <> "h264"
  \/ (codec options = "h264" /\ negotiation_result lib options <> 0)
  \/ (codec options = "h264" /\ negotiation_result lib options = 0).
Proof.
  destruct (String.eqb_spec (codec options) "h264") as [Hc | Hc]; [| now left].
  destruct (Z.eq_dec (negotiation_result lib options) 0); auto.
Qed.

(** When the constructor returns, it has acquired the session first and
    has neither released it nor written to it. *)
Lemma ctor_returned tr this tr' :
  WebrtcOutput_ctor lib options tr = (Returned this, tr') ->
  this = constructed lib /\
  exists evs, tr' = tr ++ EInit (eyecam_net_init lib) :: evs
    /\ count is_init evs = 0%nat /\ count is_deinit evs = 0%nat
    /\ count is_write evs = 0%nat /\ count is_exit evs = 0%nat.
Proof.
  intros H.
  destruct ctor_cases as [Hc | [[Hc Hr] | [Hc Hr]]].
  - rewrite (ctor_mismatch tr Hc) in H. injection H as <- <-.
    split; [reflexivity |]. eexists. split; [reflexivity |]. repeat split.
  - rewrite (ctor_connected tr Hc Hr) in H. injection H as <- <-.
    split; [reflexivity |]. eexists. split; [reflexivity |]. repeat split.
  - rewrite (ctor_refused tr Hc Hr) in H. discriminate.
Qed.

End Construction.

(** ** A whole run *)

Lemma count_writes_payloads tr : count is_write tr = List.length (write_payloads tr).
Proof.
  unfold count, write_payloads.
  induction tr as [| e tr IH]; [reflexivity |].
  destruct e; simpl; rewrite ?IH; reflexivity.
Qed.

Lemma frame_event_not_init e : frame_event e = true -> is_init e = false.
Proof. destruct e; simpl; congruence. Qed.

Lemma frame_event_not_deinit e : frame_event e = true -> is_deinit e = false.
Proof. destruct e; simpl; congruence. Qed.

Lemma frame_event_not_wait e : frame_event e = true -> is_wait e = false.
Proof. destruct e; simpl; congruence. Qed.

Lemma frame_event_not_exit e : frame_event e = true -> is_exit e = false.
Proof. destruct e; simpl; congruence. Qed.

(** Once the constructor has returned, the run goes through the frames and
    ends with the release of the session. *)
Lemma lifecycle_after_ctor lib options frames this tr0 :
  run (WebrtcOutput_ctor lib options) = (Returned this, tr0) ->
  exists this' evs,
    deliver lib this frames tr0 = (Returned this', tr0 ++ evs)
    /\ run (lifecycle lib options frames) =
         (Returned tt, tr0 ++ evs ++ [EDeinit (eyecam_net_init lib)])
    /\ forallb frame_event evs = true
    /\ write_payloads evs = map (fun f => (mem f, size f)) frames
    /\ write_sessions evs = map (fun _ => eyecam_net_init lib) frames.
Proof.
  unfold run. intros Hctor.
  destruct (ctor_returned lib options [] this tr0 Hctor) as [Hthis _].
  destruct (deliver_run lib frames this tr0)
    as (this' & evs & Hrun & Hnet & Hfe & Hpay & Hses).
  exists this', evs. repeat split; try assumption.
  - unfold lifecycle, bind. rewrite Hctor, Hrun.
    unfold WebrtcOutput_dtor, EyecamNet_dtor, emit.
    rewrite Hnet, Hthis, <- app_assoc. reflexivity.
  - rewrite Hses, Hthis. reflexivity.
Qed.

(** When negotiation fails the run stops in the constructor. *)
Lemma lifecycle_refused lib options frames :
  codec options = "h264" -> negotiation_result lib options = 0 ->
  run (lifecycle lib options frames) =
    (Exited 51,
     negotiation_events lib options
       ++ [ELogError "WebRTC connection failed. Shutting down."; EExit 51]).
Proof.
  intros Hc Hr. unfold run, lifecycle, bind.
  rewrite (ctor_refused lib options [] Hc Hr). reflexivity.
Qed.

(** * The claims *)

(** ** Construction *)

(** C1.  With the codec "h264", when [eyecam_net_wait_for_connection]
    returns 0 to the constructor, the run ends in [std::exit(51)] right
    after the two log lines that follow the call, whatever frames the
    pipeline had to deliver: the exit status is 51, the exit is the last
    event, and no [eyecam_net_write_video] call is ever made. *)
Theorem negotiation_failure_exits_51 lib options frames :
  codec options = "h264" ->
  eyecam_net_wait_for_connection lib (eyecam_net_init lib) (c_str (webrtc options)) = 0 ->
  run (lifecycle lib options frames) =
    (Exited 51,
     [ EInit (eyecam_net_init lib);
       ELog 1 ("Waiting for RTC connection (namespace: " ++ webrtc options ++ ")")%string;
       EWaitForConnection (eyecam_net_init lib) (c_str (webrtc options)) 0;
       ELog 1 "Connected!? 0";
       ELogError "WebRTC connection failed. Shutting down.";
       EExit 51 ])
  /\ count is_write (snd (run (lifecycle lib options frames))) = 0%nat.
Proof.
  intros Hc Hr.
  assert (H : run (lifecycle lib options frames) =
              (Exited 51,
               negotiation_events lib options
                 ++ [ELogError "WebRTC connection failed. Shutting down."; EExit 51])).
  { apply lifecycle_refused; assumption. }
  unfold negotiation_events, negotiation_result in H. rewrite Hr in H.
  rewrite H. split; reflexivity.
Qed.

Lemma negotiation_failure_exits_51_witness :
  codec options_h264 = "h264"
  /\ eyecam_net_wait_for_connection lib_refused (eyecam_net_init lib_refused)
       (c_str (webrtc options_h264)) = 0
  /\ run (lifecycle lib_refused options_h264 (map frame_at [0; 33000; 66000])) =
       (Exited 51,
        [ EInit 4096;
          ELog 1 "Waiting for RTC connection (namespace: eyecam)";
          EWaitForConnection 4096 "eyecam" 0;
          ELog 1 "Connected!? 0";
          ELogError "WebRTC connection failed. Shutting down.";
          EExit 51 ])
  /\ count is_write
       (snd (run (lifecycle lib_refused options_h264 (map frame_at [0; 33000; 66000]))))
     = 0%nat.
Proof.
  split; [reflexivity |]. split; [reflexivity |].
  apply (negotiation_failure_exits_51 lib_refused options_h264
           (map frame_at [0; 33000; 66000])); reflexivity.
Defined.

(** C5.  With a codec other than "h264" the constructor returns normally
    after one error log: its whole trace is the session acquisition of the
    member initialiser followed by that log, so it neither calls
    [eyecam_net_wait_for_connection] nor exits. *)
Theorem codec_mismatch_is_absorbed lib options :
  codec options <> "h264" ->
  run (WebrtcOutput_ctor lib options) =
    (Returned {| net := {| state := eyecam_net_init lib |}; last_timestamp_us := 0 |},
     [ EInit (eyecam_net_init lib);
       ELogError "Webrtc only works with h264 for now. Sorry!" ])
  /\ count is_wait (snd (run (WebrtcOutput_ctor lib options))) = 0%nat
  /\ count is_exit (snd (run (WebrtcOutput_ctor lib options))) = 0%nat.
Proof.
  intros Hc. unfold run. rewrite (ctor_mismatch lib options [] Hc).
  repeat split.
Qed.

Lemma codec_mismatch_is_absorbed_witness :
  codec options_mjpeg <> "h264"
  /\ run (WebrtcOutput_ctor lib_refused options_mjpeg) =
       (Returned {| net := {| state := 4096 |}; last_timestamp_us := 0 |},
        [ EInit 4096; ELogError "Webrtc only works with h264 for now. Sorry!" ])
  /\ count is_wait (snd (run (WebrtcOutput_ctor lib_refused options_mjpeg))) = 0%nat
  /\ count is_exit (snd (run (WebrtcOutput_ctor lib_refused options_mjpeg))) = 0%nat.
Proof.
  split; [discriminate |].
  apply (codec_mismatch_is_absorbed lib_refused options_mjpeg). discriminate.
Defined.

(** ** The session *)

(** C10.  With a codec other than "h264" the session is acquired all the
    same: [eyecam_net_init] is the first event of the run, before the
    error log of the codec check; the session is neither released nor
    acquired again while frames are delivered, and it is released by the
    last event of the run, at destruction. *)
Theorem mismatched_adapter_holds_session lib options frames :
  codec options <> "h264" ->
  exists evs,
    run (lifecycle lib options frames) =
      (Returned tt,
       EInit (eyecam_net_init lib)
         :: ELogError "Webrtc only works with h264 for now. Sorry!"
         :: evs ++ [EDeinit (eyecam_net_init lib)])
    /\ count is_init evs = 0%nat
    /\ count is_deinit evs = 0%nat
    /\ count is_exit evs = 0%nat.
Proof.
  intros Hc.
  destruct (lifecycle_after_ctor lib options frames (constructed lib)
              [EInit (eyecam_net_init lib);
               ELogError "Webrtc only works with h264 for now. Sorry!"])
    as (this' & evs & _ & Hrun & Hfe & _).
  { unfold run. rewrite (ctor_mismatch lib options [] Hc). reflexivity. }
  exists evs. split; [exact Hrun |].
  repeat split; apply frame_events_count;
    auto using frame_event_not_init, frame_event_not_deinit, frame_event_not_exit.
Qed.

Lemma mismatched_adapter_holds_session_witness :
  codec options_mjpeg <> "h264"
  /\ exists evs,
       run (lifecycle lib_connected options_mjpeg (map frame_at [0; 33000])) =
         (Returned tt,
          EInit 4096
            :: ELogError "Webrtc only works with h264 for now. Sorry!"
            :: evs ++ [EDeinit 4096])
       /\ count is_init evs = 0%nat
       /\ count is_deinit evs = 0%nat
       /\ count is_exit evs = 0%nat.
Proof.
  split; [discriminate |].
  apply (mismatched_adapter_holds_session lib_connected options_mjpeg
           (map frame_at [0; 33000])). discriminate.
Defined.

(** C7.  Whenever the constructor returns, the run that delivers any
    frames and then destroys the adapter does not exit; its trace starts
    with the one [eyecam_net_init], ends with the one [eyecam_net_deinit],
    made on the pointer [eyecam_net_init] returned, and holds no other
    acquisition or release. *)
Theorem session_acquired_once_released_once lib options frames this tr0 :
  run (WebrtcOutput_ctor lib options) = (Returned this, tr0) ->
  exists evs,
    run (lifecycle lib options frames) =
      (Returned tt,
       EInit (eyecam_net_init lib) :: evs ++ [EDeinit (eyecam_net_init lib)])
    /\ count is_init evs = 0%nat
    /\ count is_deinit evs = 0%nat
    /\ count is_init (snd (run (lifecycle lib options frames))) = 1%nat
    /\ count is_deinit (snd (run (lifecycle lib options frames))) = 1%nat.
Proof.
  intros Hctor.
  destruct (lifecycle_after_ctor lib options frames this tr0 Hctor)
    as (this' & evs & _ & Hrun & Hfe & _).
  destruct (ctor_returned lib options [] this tr0 Hctor)
    as (_ & cevs & Htr0 & Hci & Hcd & _).
  simpl in Htr0. subst tr0.
  assert (Hfi : count is_init evs = 0%nat)
    by (apply frame_events_count; auto using frame_event_not_init).
  assert (Hfd : count is_deinit evs = 0%nat)
    by (apply frame_events_count; auto using frame_event_not_deinit).
  exists (cevs ++ evs).
  assert (Heq : run (lifecycle lib options frames) =
                (Returned tt,
                 EInit (eyecam_net_init lib)
                   :: (cevs ++ evs) ++ [EDeinit (eyecam_net_init lib)])).
  { rewrite Hrun. simpl. rewrite <- app_assoc. reflexivity. }
  rewrite Heq. cbn [snd].
  change (EInit (eyecam_net_init lib) :: (cevs ++ evs) ++ [EDeinit (eyecam_net_init lib)])
    with ([EInit (eyecam_net_init lib)] ++ (cevs ++ evs) ++ [EDeinit (eyecam_net_init lib)]).
  rewrite !count_app, Hci, Hcd, Hfi, Hfd.
  repeat split.
Qed.

Lemma session_acquired_once_released_once_witness :
  run (WebrtcOutput_ctor lib_first_write_fails options_h264) =
    (Returned (constructed lib_first_write_fails),
     negotiation_events lib_first_write_fails options_h264)
  /\ exists evs,
       run (lifecycle lib_first_write_fails options_h264 (map frame_at [0; 33000])) =
         (Returned tt, EInit 4096 :: evs ++ [EDeinit 4096])
       /\ count is_init evs = 0%nat
       /\ count is_deinit evs = 0%nat
       /\ count is_init
            (snd (run (lifecycle lib_first_write_fails options_h264 (map frame_at [0; 33000]))))
          = 1%nat
       /\ count is_deinit
            (snd (run (lifecycle lib_first_write_fails options_h264 (map frame_at [0; 33000]))))
          = 1%nat.
Proof.
  split; [reflexivity |].
  apply (session_acquired_once_released_once lib_first_write_fails options_h264
           (map frame_at [0; 33000]) (constructed lib_first_write_fails)
           (negotiation_events lib_first_write_fails options_h264)).
  reflexivity.
Defined.

(** The session is not released when negotiation fails: the run below
    ends in [std::exit(51)] and its trace holds no [eyecam_net_deinit]. *)
Lemma release_after_failed_negotiation_counterexample :
  run (lifecycle lib_refused options_h264 [frame_at 0]) =
    (Exited 51,
     [ EInit 4096;
       ELog 1 "Waiting for RTC connection (namespace: eyecam)";
       EWaitForConnection 4096 "eyecam" 0;
       ELog 1 "Connected!? 0";
       ELogError "WebRTC connection failed. Shutting down.";
       EExit 51 ])
  /\ count is_deinit (snd (run (lifecycle lib_refused options_h264 [frame_at 0]))) <> 1%nat.
Proof. split; [reflexivity | discriminate]. Qed.

(** C6, amended.  With the codec "h264": when negotiation succeeds the
    session is released exactly once, by the last event of the run, after
    the [eyecam_net_wait_for_connection] call; when negotiation fails the
    run exits with status 51 and the session is never released. *)
Theorem session_release_by_negotiation_outcome lib options frames :
  codec options = "h264" ->
  (negotiation_result lib options <> 0 ->
     exists evs,
       run (lifecycle lib options frames) =
         (Returned tt,
          negotiation_events lib options ++ evs ++ [EDeinit (eyecam_net_init lib)])
       /\ count is_wait evs = 0%nat
       /\ count is_deinit (snd (run (lifecycle lib options frames))) = 1%nat)
  /\ (negotiation_result lib options = 0 ->
        fst (run (lifecycle lib options frames)) = Exited 51
        /\ count is_deinit (snd (run (lifecycle lib options frames))) = 0%nat).
Proof.
  intros Hc. split; intros Hr.
  - destruct (lifecycle_after_ctor lib options frames (constructed lib)
                (negotiation_events lib options))
      as (this' & evs & _ & Hrun & Hfe & _).
    { unfold run. rewrite (ctor_connected lib options [] Hc Hr). reflexivity. }
    exists evs. split; [exact Hrun |]. split.
    + apply frame_events_count; auto using frame_event_not_wait.
    + rewrite Hrun. cbn [snd]. rewrite !count_app.
      rewrite (frame_events_count is_deinit evs frame_event_not_deinit Hfe).
      reflexivity.
  - rewrite (lifecycle_refused lib options frames Hc Hr). split; reflexivity.
Qed.

Lemma session_release_by_negotiation_outcome_witness :
  codec options_h264 = "h264"
  /\ negotiation_result lib_connected options_h264 <> 0
  /\ exists evs,
       run (lifecycle lib_connected options_h264 (map frame_at [0; 33000])) =
         (Returned tt,
          negotiation_events lib_connected options_h264 ++ evs ++ [EDeinit 4096])
       /\ count is_wait evs = 0%nat
       /\ count is_deinit
            (snd (run (lifecycle lib_connected options_h264 (map frame_at [0; 33000]))))
          = 1%nat.
Proof.
  split; [reflexivity |]. split; [discriminate |].
  apply (session_release_by_negotiation_outcome lib_connected options_h264
           (map frame_at [0; 33000])); [reflexivity | discriminate].
Defined.

(** ** Frames *)

(** With a codec other than "h264" a delivered frame is still written to
    the transport: one frame, one [eyecam_net_write_video] call. *)
Lemma disabled_sink_is_silent_counterexample :
  codec options_mjpeg <> "h264"
  /\ run (lifecycle lib_connected options_mjpeg [frame_at 0]) =
       (Returned tt,
        [ EInit 4096;
          ELogError "Webrtc only works with h264 for now. Sorry!";
          EWriteVideo 4096 1024 65536 0 1;
          EDeinit 4096 ])
  /\ count is_write (snd (run (lifecycle lib_connected options_mjpeg [frame_at 0]))) <> 0%nat.
Proof. split; [discriminate |]. split; [reflexivity | discriminate]. Qed.

(** C4, amended.  With a codec other than "h264" the constructor logs an
    error and skips negotiation, and nothing records the mismatch: every
    frame delivered afterwards makes exactly one [eyecam_net_write_video]
    call, in order, on the session that was never negotiated. *)
Theorem mismatched_adapter_still_writes lib options frames :
  codec options <> "h264" ->
  exists evs,
    run (lifecycle lib options frames) =
      (Returned tt,
       [ EInit (eyecam_net_init lib);
         ELogError "Webrtc only works with h264 for now. Sorry!" ]
         ++ evs ++ [EDeinit (eyecam_net_init lib)])
    /\ write_payloads evs = map (fun f => (mem f, size f)) frames
    /\ write_sessions evs = map (fun _ => eyecam_net_init lib) frames
    /\ count is_write (snd (run (lifecycle lib options frames))) = List.length frames
    /\ count is_wait (snd (run (lifecycle lib options frames))) = 0%nat.
Proof.
  intros Hc.
  destruct (lifecycle_after_ctor lib options frames (constructed lib)
              [EInit (eyecam_net_init lib);
               ELogError "Webrtc only works with h264 for now. Sorry!"])
    as (this' & evs & _ & Hrun & Hfe & Hpay & Hses).
  { unfold run. rewrite (ctor_mismatch lib options [] Hc). reflexivity. }
  exists evs. split; [exact Hrun |]. split; [exact Hpay |]. split; [exact Hses |].
  rewrite Hrun. cbn [snd]. rewrite !count_app. split.
  - rewrite (count_writes_payloads evs), Hpay, length_map. cbn. lia.
  - rewrite (frame_events_count is_wait evs frame_event_not_wait Hfe). reflexivity.
Qed.

Lemma mismatched_adapter_still_writes_witness :
  codec options_mjpeg <> "h264"
  /\ exists evs,
       run (lifecycle lib_lossy options_mjpeg (map frame_at [0; 33000])) =
         (Returned tt,
          [ EInit 4096; ELogError "Webrtc only works with h264 for now. Sorry!" ]
            ++ evs ++ [EDeinit 4096])
       /\ write_payloads evs = [(65536, 1024); (65536, 1024)]
       /\ write_sessions evs = [4096; 4096]
       /\ count is_write (snd (run (lifecycle lib_lossy options_mjpeg (map frame_at [0; 33000]))))
          = 2%nat
       /\ count is_wait (snd (run (lifecycle lib_lossy options_mjpeg (map frame_at [0; 33000]))))
          = 0%nat.
Proof.
  split; [discriminate |].
  apply (mismatched_adapter_still_writes lib_lossy options_mjpeg (map frame_at [0; 33000])).
  discriminate.
Defined.

(** C8.  Each [outputBuffer] call makes exactly one
    [eyecam_net_write_video] call, for the frame it was given, whatever the
    native call returns; so a stream of frames makes one call per frame, in
    the order the frames arrive, and appends nothing to the trace but these
    calls and the error logs of the failed ones. *)
Theorem one_write_per_frame_in_order lib :
  (forall this f tr,
     exists evs,
       outputBuffer lib this f tr = (Returned (advance this f), tr ++ evs)
       /\ write_payloads evs = [(mem f, size f)]
       /\ count is_write evs = 1%nat)
  /\ (forall this frames tr,
        exists this' evs,
          deliver lib this frames tr = (Returned this', tr ++ evs)
          /\ write_payloads evs = map (fun f => (mem f, size f)) frames
          /\ count is_write evs = List.length frames
          /\ forallb frame_event evs = true).
Proof.
  split.
  - intros this f tr. exists (outputBuffer_events lib this f tr).
    split; [apply outputBuffer_run |].
    split; [apply outputBuffer_events_payloads |].
    rewrite count_writes_payloads, outputBuffer_events_payloads. reflexivity.
  - intros this frames tr.
    destruct (deliver_run lib frames this tr)
      as (this' & evs & Hrun & _ & Hfe & Hpay & _).
    exists this', evs. repeat split; try assumption.
    rewrite count_writes_payloads, Hpay, length_map. reflexivity.
Qed.

(** ** Durations *)

(** When a timestamp is smaller than the one before it, the duration
    handed to the transport is not the difference of the two. *)
Lemma exact_durations_counterexample :
  write_durations
    (snd (run (lifecycle lib_connected options_h264 (map frame_at [5; 3]))))
  = [5; 18446744073709551614]
  /\ write_durations
       (snd (run (lifecycle lib_connected options_h264 (map frame_at [5; 3]))))
     <> spec_durations 0 [5; 3].
Proof. split; [reflexivity | discriminate]. Qed.

(** C2, amended.  For every sequence of frames delivered in order to a
    constructed adapter, the duration passed to [eyecam_net_write_video]
    for frame n is (t_n - t_(n-1)) mod 2^64, with t_(-1) = 0; when the
    timestamps are [int64_t] values that never decrease from 0 this is
    exactly t_n - t_(n-1), so that the first duration is the first
    timestamp; for the timestamps 0, 33000, 66000 the durations are
    0, 33000, 33000. *)
Theorem durations_are_wrapped_differences lib options this tr0 frames :
  run (WebrtcOutput_ctor lib options) = (Returned this, tr0) ->
  exists this' evs,
    deliver lib this frames tr0 = (Returned this', tr0 ++ evs)
    /\ write_durations evs =
         map (fun d => d mod 2 ^ 64) (spec_durations 0 (map timestamp_us frames))
    /\ (Forall int64_range (map timestamp_us frames) ->
        nondecreasing_from 0 (map timestamp_us frames) ->
        write_durations evs = spec_durations 0 (map timestamp_us frames))
    /\ (map timestamp_us frames = [0; 33000; 66000] ->
        write_durations evs = [0; 33000; 33000]).
Proof.
  intros Hctor.
  destruct (ctor_returned lib options [] this tr0 Hctor) as [Hthis _].
  destruct (deliver_run lib frames this tr0) as (this' & evs & Hrun & _).
  assert (Hbase : last_timestamp_us this = to_uint64 0) by (subst this; reflexivity).
  destruct (deliver_durations lib frames this tr0 0 this' evs Hbase Hrun) as [Hd _].
  exists this', evs. split; [exact Hrun |]. split; [exact Hd |]. split.
  - intros Hrange Hmono. rewrite Hd.
    apply spec_durations_exact; [unfold int64_range; lia | assumption | assumption].
  - intros Hts. rewrite Hd, Hts. reflexivity.
Qed.

Lemma durations_are_wrapped_differences_witness :
  run (WebrtcOutput_ctor lib_connected options_h264) =
    (Returned (constructed lib_connected), negotiation_events lib_connected options_h264)
  /\ exists this' evs,
       deliver lib_connected (constructed lib_connected)
         (map frame_at [0; 33000; 66000])
         (negotiation_events lib_connected options_h264)
       = (Returned this', negotiation_events lib_connected options_h264 ++ evs)
       /\ write_durations evs = [0; 33000; 33000].
Proof.
  split; [reflexivity |].
  destruct (durations_are_wrapped_differences lib_connected options_h264
              (constructed lib_connected)
              (negotiation_events lib_connected options_h264)
              (map frame_at [0; 33000; 66000]) eq_refl)
    as (this' & evs & Hrun & _ & _ & Hex).
  exists this', evs. split; [exact Hrun | exact (Hex eq_refl)].
Defined.

(** After a failed write of a frame with timestamp 7, a frame with
    timestamp 4 gets a duration that is not 4 - 7; and after a frame with
    timestamp -1 the stored field is not -1. *)
Lemma update_after_failure_counterexample :
  run (deliver lib_lossy (constructed lib_lossy) (map frame_at [7; 4])) =
    (Returned {| net := {| state := 4096 |}; last_timestamp_us := 4 |},
     [ EWriteVideo 4096 1024 65536 7 0;
       ELogError "Failed to send samples?";
       EWriteVideo 4096 1024 65536 18446744073709551613 0;
       ELogError "Failed to send samples?" ])
  /\ 18446744073709551613 <> 4 - 7
  /\ fst (run (outputBuffer lib_lossy (constructed lib_lossy) (frame_at (-1)))) =
       Returned {| net := {| state := 4096 |};
                   last_timestamp_us := 18446744073709551615 |}
  /\ 18446744073709551615 <> -1.
Proof. repeat split; discriminate. Qed.

(** C3, amended.  After every [outputBuffer] call with timestamp t_n the
    stored field is t_n converted to [uint64_t] (t_n itself when t_n is
    not negative), whether the write succeeded or failed; a failed write
    adds one error log and nothing else.  So the duration of the next
    frame is (t_(n+1) - t_n) mod 2^64, which is t_(n+1) - t_n when the
    timestamps are [int64_t] values with t_n <= t_(n+1); it is not computed
    from an earlier timestamp that differs from t_n. *)
Theorem last_timestamp_updated_regardless lib this f g tr :
  exists this1 evs1 evs2,
    outputBuffer lib this f tr = (Returned this1, tr ++ evs1)
    /\ last_timestamp_us this1 = (timestamp_us f) mod 2 ^ 64
    /\ (0 <= timestamp_us f < 2 ^ 63 -> last_timestamp_us this1 = timestamp_us f)
    /\ (forall d,
          eyecam_net_write_video lib tr (state (net this)) (size f) (mem f) d = 0 ->
          d = sub_uint64 (to_uint64 (timestamp_us f)) (last_timestamp_us this) ->
          evs1 = [ EWriteVideo (state (net this)) (size f) (mem f) d 0;
                   ELogError "Failed to send samples?" ])
    /\ outputBuffer lib this1 g (tr ++ evs1) =
         (Returned (advance this1 g), (tr ++ evs1) ++ evs2)
    /\ write_durations evs2 = [(timestamp_us g - timestamp_us f) mod 2 ^ 64]
    /\ (int64_range (timestamp_us f) -> int64_range (timestamp_us g) ->
        timestamp_us f <= timestamp_us g ->
        write_durations evs2 = [timestamp_us g - timestamp_us f])
    /\ (forall p,
          int64_range p -> int64_range (timestamp_us f) ->
          last_timestamp_us this = to_uint64 p -> p <> timestamp_us f ->
          write_durations evs2 <> [(timestamp_us g - p) mod 2 ^ 64]).
Proof.
  exists (advance this f), (outputBuffer_events lib this f tr),
         (outputBuffer_events lib (advance this f) g
            (tr ++ outputBuffer_events lib this f tr)).
  assert (Hd : write_durations
                 (outputBuffer_events lib (advance this f) g
                    (tr ++ outputBuffer_events lib this f tr))
               = [(timestamp_us g - timestamp_us f) mod 2 ^ 64]).
  { rewrite outputBuffer_events_durations. cbn [advance last_timestamp_us].
    rewrite sub_uint64_conv. reflexivity. }
  split; [apply outputBuffer_run |].
  split; [reflexivity |].
  split; [intros Hf; apply to_uint64_nonneg; exact Hf |].
  split.
  { intros d Hfail ->. unfold outputBuffer_events. cbv zeta.
    rewrite Hfail. reflexivity. }
  split; [apply outputBuffer_run |].
  split; [exact Hd |].
  split.
  - intros Hf Hg Hle. rewrite Hd. f_equal.
    rewrite <- sub_uint64_conv. apply sub_uint64_exact; assumption.
  - intros p Hp Hf Hbase Hne. rewrite Hd. intros Heq.
    injection Heq as Heq.
    apply Hne. symmetry.
    apply to_uint64_inj; [assumption | assumption |].
    exact (sub_mod_cancel _ (timestamp_us g) _ _ Heq).
Qed.

Lemma last_timestamp_updated_regardless_witness :
  exists this1 evs1 evs2,
    outputBuffer lib_first_write_fails (constructed lib_first_write_fails)
      (frame_at 33000) []
    = (Returned this1, [] ++ evs1)
    /\ last_timestamp_us this1 = 33000
    /\ evs1 = [ EWriteVideo 4096 1024 65536 33000 0;
                ELogError "Failed to send samples?" ]
    /\ outputBuffer lib_first_write_fails this1 (frame_at 66000) ([] ++ evs1)
       = (Returned (advance this1 (frame_at 66000)), ([] ++ evs1) ++ evs2)
    /\ write_durations evs2 = [33000].
Proof.
  destruct (last_timestamp_updated_regardless lib_first_write_fails
              (constructed lib_first_write_fails) (frame_at 33000) (frame_at 66000) [])
    as (this1 & evs1 & evs2 & Hrun1 & _ & Hlast & Hfail & Hrun2 & _ & Hexact & _).
  exists this1, evs1, evs2.
  split; [exact Hrun1 |].
  split; [apply Hlast; cbn; lia |].
  split; [apply (Hfail 33000); reflexivity |].
  split; [exact Hrun2 |].
  apply Hexact; unfold int64_range; cbn; lia.
Defined.

(** C9.  The duration handed to [eyecam_net_write_video] is computed in
    [uint64_t]: it is (timestamp_us converted to uint64 - last_timestamp_us)
    mod 2^64.  For two frames g, f delivered one after the other with
    [int64_t] timestamps, the duration of f is a [uint64_t] value; when
    f's timestamp is smaller than g's it is the difference plus 2^64,
    which is positive (neither negative nor clamped to zero) and above 2^63
    when f's timestamp is not negative; when f's timestamp is not smaller
    than g's it is the exact difference. *)
Theorem duration_is_uint64_difference lib this g f tr :
  int64_range (timestamp_us g) -> int64_range (timestamp_us f) ->
  exists this' evs d_g d_f,
    deliver lib this [g; f] tr = (Returned this', tr ++ evs)
    /\ write_durations evs = [d_g; d_f]
    /\ d_g = (timestamp_us g mod 2 ^ 64 - last_timestamp_us this) mod 2 ^ 64
    /\ d_f = (timestamp_us f mod 2 ^ 64 - timestamp_us g mod 2 ^ 64) mod 2 ^ 64
    /\ 0 <= d_f < 2 ^ 64
    /\ (timestamp_us f < timestamp_us g ->
        d_f = timestamp_us f - timestamp_us g + 2 ^ 64
        /\ 0 < d_f
        /\ (0 <= timestamp_us f -> 2 ^ 63 < d_f))
    /\ (timestamp_us g <= timestamp_us f ->
        d_f = timestamp_us f - timestamp_us g).
Proof.
  intros Hg Hf.
  set (evs_g := outputBuffer_events lib this g tr).
  set (evs_f := outputBuffer_events lib (advance this g) f (tr ++ evs_g)).
  exists (advance (advance this g) f), (evs_g ++ evs_f),
         (sub_uint64 (to_uint64 (timestamp_us g)) (last_timestamp_us this)),
         (sub_uint64 (to_uint64 (timestamp_us f)) (to_uint64 (timestamp_us g))).
  split.
  { cbn [deliver]. unfold bind, ret. rewrite outputBuffer_run. fold evs_g.
    rewrite outputBuffer_run. fold evs_f. rewrite <- app_assoc. reflexivity. }
  split.
  { rewrite write_durations_app. unfold evs_g, evs_f.
    rewrite !outputBuffer_events_durations. reflexivity. }
  split; [reflexivity |].
  split; [reflexivity |].
  split; [apply sub_uint64_range |].
  split.
  - intros Hlt. rewrite (sub_uint64_wrap _ _ Hf Hg Hlt).
    unfold int64_range in *. repeat split; lia.
  - intros Hle. apply sub_uint64_exact; assumption.
Qed.

Lemma duration_is_uint64_difference_witness :
  int64_range (timestamp_us (frame_at 33000))
  /\ int64_range (timestamp_us (frame_at 0))
  /\ exists this' evs,
       deliver lib_connected (constructed lib_connected) [frame_at 33000; frame_at 0] []
       = (Returned this', [] ++ evs)
       /\ write_durations evs = [33000; 18446744073709518616].
Proof.
  assert (H1 : int64_range (timestamp_us (frame_at 33000)))
    by (unfold int64_range; cbn; lia).
  assert (H0 : int64_range (timestamp_us (frame_at 0)))
    by (unfold int64_range; cbn; lia).
  split; [exact H1 |]. split; [exact H0 |].
  destruct (duration_is_uint64_difference lib_connected (constructed lib_connected)
              (frame_at 33000) (frame_at 0) [] H1 H0)
    as (this' & evs & d_g & d_f & Hrun & Hd & Hdg & _ & _ & Hwrap & _).
  exists this', evs. split; [exact Hrun |].
  rewrite Hd, Hdg.
  destruct Hwrap as [-> _]; [cbn; lia |].
  reflexivity.
Defined.

(** ** The earlier variant *)

(** The earlier constructor never exits: after a failed negotiation the
    frames are still written and the session is released at destruction. *)
Lemma earlier_variant_continues_after_failure :
  run (Earlier.lifecycle lib_refused options_h264 [frame_at 0]) =
    (Returned tt,
     [ EInit 4096;
       ELog 1 "Waiting for RTC connection (namespace: eyecam)";
       EWaitForConnection 4096 "eyecam" 0;
       ELog 1 "Connected!? 0";
       EWriteVideo 4096 1024 65536 0 1;
       EDeinit 4096 ]).
Proof. reflexivity. Qed.

(** * Further properties of the code *)

(** ** Streams as event lists *)

Lemma stream_end_net frames : forall this, net (stream_end this frames) = net this.
Proof.
  induction frames as [| f rest IH]; intros this; [reflexivity |].
  unfold stream_end in *. cbn [fold_left]. rewrite IH. reflexivity.
Qed.

Lemma deliver_eq lib frames : forall this tr,
  deliver lib this frames tr =
    (Returned (stream_end this frames), tr ++ deliver_events lib this frames tr).
Proof.
  induction frames as [| f rest IH]; intros this tr.
  - cbn. unfold ret. rewrite app_nil_r. reflexivity.
  - cbn [deliver deliver_events]. unfold bind.
    rewrite outputBuffer_run, IH. cbv zeta. rewrite <- app_assoc. reflexivity.
Qed.

Lemma deliver_events_frame lib frames : forall this tr,
  forallb frame_event (deliver_events lib this frames tr) = true.
Proof.
  induction frames as [| f rest IH]; intros this tr; [reflexivity |].
  cbn [deliver_events]. cbv zeta.
  rewrite forallb_app, outputBuffer_events_frame, IH. reflexivity.
Qed.

Lemma deliver_events_payloads lib frames : forall this tr,
  write_payloads (deliver_events lib this frames tr) =
    map (fun f => (mem f, size f)) frames.
Proof.
  induction frames as [| f rest IH]; intros this tr; [reflexivity |].
  cbn [deliver_events]. cbv zeta.
  rewrite write_payloads_app, outputBuffer_events_payloads, IH. reflexivity.
Qed.

Lemma deliver_events_sessions lib frames : forall this tr,
  write_sessions (deliver_events lib this frames tr) =
    map (fun _ => state (net this)) frames.
Proof.
  induction frames as [| f rest IH]; intros this tr; [reflexivity |].
  cbn [deliver_events]. cbv zeta.
  rewrite write_sessions_app, outputBuffer_events_sessions, IH. reflexivity.
Qed.

(** ** Whole runs as event lists *)

Lemma construction_events_returned lib options tr this tr' :
  WebrtcOutput_ctor lib options tr = (Returned this, tr') ->
  this = constructed lib /\ tr' = tr ++ construction_events lib options.
Proof.
  intros H. unfold construction_events.
  destruct (ctor_cases lib options) as [Hc | [[Hc Hr] | [Hc Hr]]].
  - rewrite (ctor_mismatch lib options tr Hc) in H. injection H as <- <-.
    apply String.eqb_neq in Hc. rewrite Hc. auto.
  - rewrite (ctor_connected lib options tr Hc Hr) in H. injection H as <- <-.
    apply String.eqb_eq in Hc. rewrite Hc. auto.
  - rewrite (ctor_refused lib options tr Hc Hr) in H. discriminate.
Qed.

Lemma ctor_returns_unless_refused lib options tr :
  ~ (codec options = "h264" /\ negotiation_result lib options = 0) ->
  WebrtcOutput_ctor lib options tr =
    (Returned (constructed lib), tr ++ construction_events lib options).
Proof.
  intros Hn. unfold construction_events.
  destruct (ctor_cases lib options) as [Hc | [[Hc Hr] | [Hc Hr]]].
  - rewrite (ctor_mismatch lib options tr Hc).
    apply String.eqb_neq in Hc. rewrite Hc. reflexivity.
  - rewrite (ctor_connected lib options tr Hc Hr).
    apply String.eqb_eq in Hc. rewrite Hc. reflexivity.
  - exfalso. auto.
Qed.

Lemma lifecycle_returns_unless_refused lib options frames :
  ~ (codec options = "h264" /\ negotiation_result lib options = 0) ->
  run (lifecycle lib options frames) =
    (Returned tt,
     construction_events lib options
       ++ deliver_events lib (constructed lib) frames (construction_events lib options)
       ++ [EDeinit (eyecam_net_init lib)]).
Proof.
  intros Hn. unfold run, lifecycle, bind.
  rewrite (ctor_returns_unless_refused lib options [] Hn), deliver_eq.
  unfold WebrtcOutput_dtor, EyecamNet_dtor, emit.
  rewrite stream_end_net. cbn [app constructed net state].
  rewrite <- app_assoc. reflexivity.
Qed.

Lemma earlier_ctor_run lib options tr :
  Earlier.WebrtcOutput_ctor lib options tr =
    (Returned (constructed lib), tr ++ construction_events lib options).
Proof.
  unfold Earlier.WebrtcOutput_ctor, construction_events, EyecamNet_ctor,
    call_wait_for_connection, bind, emit, ret, LOG, LOG_ERROR. cbn.
  destruct (String.eqb (codec options) "h264"); cbn;
    rewrite <- ?app_assoc; reflexivity.
Qed.

Lemma earlier_lifecycle_run lib options frames :
  run (Earlier.lifecycle lib options frames) =
    (Returned tt,
     construction_events lib options
       ++ deliver_events lib (constructed lib) frames (construction_events lib options)
       ++ [EDeinit (eyecam_net_init lib)]).
Proof.
  unfold run, Earlier.lifecycle, bind.
  rewrite earlier_ctor_run, deliver_eq.
  unfold WebrtcOutput_dtor, EyecamNet_dtor, emit.
  rewrite stream_end_net. cbn [app constructed net state].
  rewrite <- app_assoc. reflexivity.
Qed.

Lemma construction_events_head lib options :
  exists evs,
    construction_events lib options = EInit (eyecam_net_init lib) :: evs
    /\ count is_init evs = 0%nat /\ count is_deinit evs = 0%nat
    /\ count is_write evs = 0%nat /\ count is_exit evs = 0%nat.
Proof.
  unfold construction_events, negotiation_events.
  destruct (String.eqb (codec options) "h264");
    eexists; (split; [reflexivity |]); repeat split.
Qed.

(** ** When the process exits *)

(** X1.  A run ends in [std::exit] only through the failed negotiation of
    the constructor, and then with status 51: it returns exactly when the
    codec is not "h264" or [eyecam_net_wait_for_connection] returned a
    non-zero value, whatever [eyecam_net_write_video] returns for the
    frames; and it records at most one exit. *)
Theorem exit_only_on_failed_negotiation lib options frames :
  (fst (run (lifecycle lib options frames)) = Returned tt
   <-> ~ (codec options = "h264" /\ negotiation_result lib options = 0))
  /\ (forall status,
        fst (run (lifecycle lib options frames)) = Exited status -> status = 51)
  /\ (count is_exit (snd (run (lifecycle lib options frames))) <= 1)%nat.
Proof.
  destruct (ctor_cases lib options) as [Hc | [[Hc Hr] | [Hc Hr]]].
  - assert (Hn : ~ (codec options = "h264" /\ negotiation_result lib options = 0))
      by (intros [H _]; auto).
    rewrite (lifecycle_returns_unless_refused lib options frames Hn). cbn [fst snd].
    split; [split; auto |]. split; [discriminate |].
    destruct (construction_events_head lib options) as (cevs & -> & _ & _ & _ & Hx).
    change (EInit (eyecam_net_init lib) :: cevs) with ([EInit (eyecam_net_init lib)] ++ cevs).
    rewrite !count_app, Hx.
    rewrite (frame_events_count is_exit _ frame_event_not_exit
               (deliver_events_frame lib frames _ _)).
    cbn. lia.
  - assert (Hn : ~ (codec options = "h264" /\ negotiation_result lib options = 0))
      by (intros [_ H]; auto).
    rewrite (lifecycle_returns_unless_refused lib options frames Hn). cbn [fst snd].
    split; [split; auto |]. split; [discriminate |].
    destruct (construction_events_head lib options) as (cevs & -> & _ & _ & _ & Hx).
    change (EInit (eyecam_net_init lib) :: cevs) with ([EInit (eyecam_net_init lib)] ++ cevs).
    rewrite !count_app, Hx.
    rewrite (frame_events_count is_exit _ frame_event_not_exit
               (deliver_events_frame lib frames _ _)).
    cbn. lia.
  - rewrite (lifecycle_refused lib options frames Hc Hr). cbn [fst snd].
    split; [split; [discriminate | intros Hn; exfalso; auto] |].
    split; [intros status H; injection H as <-; reflexivity |].
    cbn. lia.
Qed.

(** ** Negotiation *)

(** X2.  [eyecam_net_wait_for_connection] is called once when the codec is
    "h264" and never otherwise, on the pointer [eyecam_net_init] returned
    and with the rendezvous name of the options; the call comes before
    every [eyecam_net_write_video] call of the run. *)
Theorem negotiation_once_before_writes lib options frames :
  exists pre post,
    snd (run (lifecycle lib options frames)) = pre ++ post
    /\ count is_write pre = 0%nat
    /\ count is_wait post = 0%nat
    /\ count is_wait pre = (if String.eqb (codec options) "h264" then 1 else 0)%nat
    /\ (forall s name r,
          In (EWaitForConnection s name r) pre ->
          s = eyecam_net_init lib /\ name = c_str (webrtc options)
          /\ r = negotiation_result lib options).
Proof.
  destruct (ctor_cases lib options) as [Hc | [[Hc Hr] | [Hc Hr]]].
  - assert (Hn : ~ (codec options = "h264" /\ negotiation_result lib options = 0))
      by (intros [H _]; auto).
    rewrite (lifecycle_returns_unless_refused lib options frames Hn). cbn [snd].
    eexists _, _. split; [reflexivity |].
    unfold construction_events. apply String.eqb_neq in Hc. rewrite Hc.
    split; [reflexivity |]. split.
    + rewrite count_app.
      rewrite (frame_events_count is_wait _ frame_event_not_wait
                 (deliver_events_frame lib frames _ _)). reflexivity.
    + split; [reflexivity |].
      intros s name r Hin. cbn in Hin.
      destruct Hin as [H | [H | H]]; try discriminate; contradiction.
  - assert (Hn : ~ (codec options = "h264" /\ negotiation_result lib options = 0))
      by (intros [_ H]; auto).
    rewrite (lifecycle_returns_unless_refused lib options frames Hn). cbn [snd].
    eexists _, _. split; [reflexivity |].
    unfold construction_events. apply String.eqb_eq in Hc. rewrite Hc.
    split; [reflexivity |]. split.
    + rewrite count_app.
      rewrite (frame_events_count is_wait _ frame_event_not_wait
                 (deliver_events_frame lib frames _ _)). reflexivity.
    + split; [reflexivity |].
      intros s name r Hin. cbn in Hin.
      destruct Hin as [H | [H | [H | [H | H]]]]; try discriminate;
        [injection H as <- <- <-; auto | contradiction].
  - rewrite (lifecycle_refused lib options frames Hc Hr). cbn [snd].
    exists (negotiation_events lib options),
           [ELogError "WebRTC connection failed. Shutting down."; EExit 51].
    apply String.eqb_eq in Hc. rewrite Hc.
    split; [reflexivity |]. split; [reflexivity |]. split; [reflexivity |].
    split; [reflexivity |].
    intros s name r Hin. cbn in Hin.
    destruct Hin as [H | [H | [H | [H | H]]]]; try discriminate;
      [injection H as <- <- <-; auto | contradiction].
Qed.

(** ** The session during a run *)

(** X3.  In every run that returns, all [eyecam_net_write_video] calls are
    made on the pointer [eyecam_net_init] returned, after the acquisition
    and before the release: the session is never written to before it
    exists nor after [eyecam_net_deinit]. *)
Theorem writes_use_the_live_session lib options frames :
  fst (run (lifecycle lib options frames)) = Returned tt ->
  exists mid,
    snd (run (lifecycle lib options frames)) =
      EInit (eyecam_net_init lib) :: mid ++ [EDeinit (eyecam_net_init lib)]
    /\ write_sessions mid = map (fun _ => eyecam_net_init lib) frames
    /\ write_payloads mid = map (fun f => (mem f, size f)) frames
    /\ count is_init mid = 0%nat
    /\ count is_deinit mid = 0%nat.
Proof.
  intros Hret.
  assert (Hn : ~ (codec options = "h264" /\ negotiation_result lib options = 0)).
  { intros [Hc Hr]. rewrite (lifecycle_refused lib options frames Hc Hr) in Hret.
    discriminate. }
  rewrite (lifecycle_returns_unless_refused lib options frames Hn). cbn [snd].
  destruct (construction_events_head lib options) as (cevs & Hce & Hi & Hd & Hw & _).
  exists (cevs ++ deliver_events lib (constructed lib) frames
                    (construction_events lib options)).
  split.
  { rewrite Hce at 1. cbn [app]. rewrite <- app_assoc. reflexivity. }
  assert (Hwp : write_payloads cevs = []).
  { rewrite count_writes_payloads in Hw.
    destruct (write_payloads cevs); [reflexivity | discriminate]. }
  assert (Hws : write_sessions cevs = []).
  { clear - Hw. unfold count in Hw.
    induction cevs as [| e cevs IH]; [reflexivity |].
    destruct e; cbn in *; try discriminate; auto. }
  split.
  { rewrite write_sessions_app, Hws, deliver_events_sessions. reflexivity. }
  split.
  { rewrite write_payloads_app, Hwp, deliver_events_payloads. reflexivity. }
  rewrite !count_app, Hi, Hd.
  rewrite (frame_events_count is_init _ frame_event_not_init
             (deliver_events_frame lib frames _ _)).
  rewrite (frame_events_count is_deinit _ frame_event_not_deinit
             (deliver_events_frame lib frames _ _)).
  split; reflexivity.
Qed.

Lemma writes_use_the_live_session_witness :
  fst (run (lifecycle lib_first_write_fails options_h264 (map frame_at [0; 33000])))
    = Returned tt
  /\ exists mid,
       snd (run (lifecycle lib_first_write_fails options_h264 (map frame_at [0; 33000]))) =
         EInit 4096 :: mid ++ [EDeinit 4096]
       /\ write_sessions mid = [4096; 4096]
       /\ write_payloads mid = [(65536, 1024); (65536, 1024)]
       /\ count is_init mid = 0%nat
       /\ count is_deinit mid = 0%nat.
Proof.
  split; [reflexivity |].
  apply (writes_use_the_live_session lib_first_write_fails options_h264
           (map frame_at [0; 33000])).
  reflexivity.
Defined.

(** ** Transmission failures *)

Lemma outputBuffer_events_errors lib this f tr :
  count is_send_error (outputBuffer_events lib this f tr) =
  count is_failed_write (outputBuffer_events lib this f tr).
Proof.
  unfold outputBuffer_events, count. cbv zeta.
  destruct (eyecam_net_write_video lib tr _ _ _ _ =? 0) eqn:E;
    cbn; rewrite E; reflexivity.
Qed.

Lemma deliver_events_errors lib frames : forall this tr,
  count is_send_error (deliver_events lib this frames tr) =
  count is_failed_write (deliver_events lib this frames tr).
Proof.
  induction frames as [| f rest IH]; intros this tr; [reflexivity |].
  cbn [deliver_events]. cbv zeta.
  rewrite !count_app, outputBuffer_events_errors, IH. reflexivity.
Qed.

(** X4.  In every run the error "Failed to send samples?" is logged once
    for each [eyecam_net_write_video] call that returned 0 and never
    otherwise, and every frame is still written: a failed write stops
    neither the stream nor the process. *)
Theorem one_error_log_per_failed_write lib options frames :
  count is_send_error (snd (run (lifecycle lib options frames))) =
  count is_failed_write (snd (run (lifecycle lib options frames)))
  /\ (fst (run (lifecycle lib options frames)) = Returned tt ->
      count is_write (snd (run (lifecycle lib options frames))) = List.length frames).
Proof.
  destruct (ctor_cases lib options) as [Hc | [[Hc Hr] | [Hc Hr]]].
  - assert (Hn : ~ (codec options = "h264" /\ negotiation_result lib options = 0))
      by (intros [H _]; auto).
    rewrite (lifecycle_returns_unless_refused lib options frames Hn). cbn [fst snd].
    rewrite !count_app, deliver_events_errors.
    rewrite (count_writes_payloads (deliver_events _ _ _ _)),
      deliver_events_payloads, length_map.
    unfold construction_events. apply String.eqb_neq in Hc. rewrite Hc.
    split; [reflexivity | intros _; cbn; lia].
  - assert (Hn : ~ (codec options = "h264" /\ negotiation_result lib options = 0))
      by (intros [_ H]; auto).
    rewrite (lifecycle_returns_unless_refused lib options frames Hn). cbn [fst snd].
    rewrite !count_app, deliver_events_errors.
    rewrite (count_writes_payloads (deliver_events _ _ _ _)),
      deliver_events_payloads, length_map.
    unfold construction_events. apply String.eqb_eq in Hc. rewrite Hc.
    split; [reflexivity | intros _; cbn; lia].
  - rewrite (lifecycle_refused lib options frames Hc Hr). cbn [fst snd].
    split; [reflexivity | discriminate].
Qed.

Lemma one_error_log_per_failed_write_witness :
  count is_send_error
    (snd (run (lifecycle lib_first_write_fails options_h264 (map frame_at [0; 33000; 66000]))))
  = 1%nat
  /\ count is_failed_write
       (snd (run (lifecycle lib_first_write_fails options_h264 (map frame_at [0; 33000; 66000]))))
     = 1%nat
  /\ count is_write
       (snd (run (lifecycle lib_first_write_fails options_h264 (map frame_at [0; 33000; 66000]))))
     = 3%nat.
Proof.
  destruct (one_error_log_per_failed_write lib_first_write_fails options_h264
              (map frame_at [0; 33000; 66000])) as [He Hw].
  split; [reflexivity |]. split; [rewrite <- He; reflexivity |].
  exact (Hw eq_refl).
Defined.

(** ** Durations as the receiver sees them *)

Lemma accumulate_step a t :
  to_uint64 (a + sub_uint64 (to_uint64 t) a) = to_uint64 t.
Proof.
  unfold to_uint64, sub_uint64, modulus64.
  rewrite Zplus_mod_idemp_r.
  replace (a + (t mod 2 ^ 64 - a)) with (t mod 2 ^ 64) by lia.
  apply Zmod_mod.
Qed.

Lemma deliver_events_accumulate lib frames : forall this tr,
  accumulate (last_timestamp_us this)
    (write_durations (deliver_events lib this frames tr))
  = map (fun f => to_uint64 (timestamp_us f)) frames.
Proof.
  induction frames as [| f rest IH]; intros this tr; [reflexivity |].
  cbn [deliver_events]. cbv zeta.
  rewrite write_durations_app, outputBuffer_events_durations.
  cbn [app accumulate map]. rewrite accumulate_step. f_equal.
  exact (IH (advance this f) _).
Qed.

Lemma deliver_events_durations_range lib frames : forall this tr,
  Forall uint64_range (write_durations (deliver_events lib this frames tr)).
Proof.
  induction frames as [| f rest IH]; intros this tr; [constructor |].
  cbn [deliver_events]. cbv zeta.
  rewrite write_durations_app, outputBuffer_events_durations.
  cbn [app]. constructor; [apply sub_uint64_range | apply IH].
Qed.

Lemma stream_end_last frames : forall this,
  last_timestamp_us (stream_end this frames) =
    last (map (fun f => to_uint64 (timestamp_us f)) frames) (last_timestamp_us this).
Proof.
  induction frames as [| f rest IH]; intros this; [reflexivity |].
  unfold stream_end in *. cbn [fold_left map].
  rewrite IH, last_cons_default. reflexivity.
Qed.

(** X5.  Every duration handed to [eyecam_net_write_video] is a
    [uint64_t] value, whatever the timestamps and the state; and after a
    stream that is not empty the stored timestamp is the last frame's
    timestamp converted to [uint64_t], whatever the state was before,
    while an empty stream changes neither the state nor the trace. *)
Theorem durations_and_state_stay_in_uint64 lib this frames tr :
  exists this' evs,
    deliver lib this frames tr = (Returned this', tr ++ evs)
    /\ Forall uint64_range (write_durations evs)
    /\ (frames <> [] ->
        uint64_range (last_timestamp_us this')
        /\ forall other,
             last_timestamp_us this' =
               last (map (fun f => to_uint64 (timestamp_us f)) frames) other)
    /\ (frames = [] -> this' = this /\ evs = []).
Proof.
  exists (stream_end this frames), (deliver_events lib this frames tr).
  split; [apply deliver_eq |].
  split; [apply deliver_events_durations_range |].
  split.
  - intros Hne. destruct frames as [| f rest]; [contradiction |].
    assert (H : forall other,
               last_timestamp_us (stream_end this (f :: rest)) =
               last (map (fun f => to_uint64 (timestamp_us f)) (f :: rest)) other).
    { intros other. rewrite stream_end_last. cbn [map].
      rewrite !last_cons_default. reflexivity. }
    split; [| exact H].
    rewrite (H 0). cbn [map]. rewrite last_cons_default.
    clear H Hne.
    generalize (timestamp_us f). induction rest as [| g rest IH]; intros t.
    + apply to_uint64_range.
    + cbn [map]. rewrite last_cons_default. apply IH.
  - intros ->. split; reflexivity.
Qed.

Lemma durations_and_state_stay_in_uint64_witness :
  exists this' evs,
    deliver lib_lossy (constructed lib_lossy) (map frame_at [5; -3]) [] =
      (Returned this', [] ++ evs)
    /\ Forall uint64_range (write_durations evs)
    /\ last_timestamp_us this' = 18446744073709551613.
Proof.
  destruct (durations_and_state_stay_in_uint64 lib_lossy (constructed lib_lossy)
              (map frame_at [5; -3]) [])
    as (this' & evs & Hrun & Hrange & Hlast & _).
  exists this', evs. split; [exact Hrun |]. split; [exact Hrange |].
  destruct Hlast as [_ Hl]; [discriminate |].
  rewrite (Hl 0). reflexivity.
Defined.

(** X6.  The durations let a receiver rebuild the timestamps: adding the
    durations of a stream up in [uint64_t], starting from the stored
    timestamp the stream began with, gives back every frame's timestamp
    converted to [uint64_t] -- the timestamps themselves when they are
    non-negative [int64_t] values -- even when timestamps decrease. *)
Theorem durations_rebuild_timestamps lib this frames tr :
  exists this' evs,
    deliver lib this frames tr = (Returned this', tr ++ evs)
    /\ accumulate (last_timestamp_us this) (write_durations evs) =
         map (fun f => (timestamp_us f) mod 2 ^ 64) frames
    /\ (Forall (fun f => 0 <= timestamp_us f < 2 ^ 63) frames ->
        accumulate (last_timestamp_us this) (write_durations evs) =
          map timestamp_us frames).
Proof.
  exists (stream_end this frames), (deliver_events lib this frames tr).
  split; [apply deliver_eq |].
  split; [apply deliver_events_accumulate |].
  intros Hnn. rewrite deliver_events_accumulate.
  apply map_ext_in. intros f Hin.
  apply to_uint64_nonneg. rewrite Forall_forall in Hnn. exact (Hnn f Hin).
Qed.

Lemma durations_rebuild_timestamps_witness :
  exists this' evs,
    deliver lib_connected (constructed lib_connected) (map frame_at [5; 3; 33000]) [] =
      (Returned this', [] ++ evs)
    /\ write_durations evs = [5; 18446744073709551614; 32997]
    /\ accumulate 0 (write_durations evs) = [5; 3; 33000].
Proof.
  destruct (durations_rebuild_timestamps lib_connected (constructed lib_connected)
              (map frame_at [5; 3; 33000]) [])
    as (this' & evs & Hrun & _ & Hexact).
  exists this', evs. split; [exact Hrun |].
  split.
  - cbv in Hrun. injection Hrun as _ <-. reflexivity.
  - apply Hexact. repeat constructor; cbn; lia.
Defined.

Lemma spec_durations_total ts : forall prev,
  total (spec_durations prev ts) = last ts prev - prev.
Proof.
  induction ts as [| t rest IH]; intros prev.
  - cbn. lia.
  - cbn [spec_durations]. unfold total in *. cbn [fold_right].
    rewrite IH, last_cons_default. lia.
Qed.

(** X7.  On [int64_t] timestamps that never decrease from the timestamp
    [prev] the adapter has stored, the durations of a stream add up to the
    last timestamp minus [prev]; from a fresh adapter ([prev] = 0) the
    total is the last frame's timestamp. *)
Theorem durations_add_up_to_last_timestamp lib this frames tr prev :
  int64_range prev ->
  last_timestamp_us this = to_uint64 prev ->
  Forall int64_range (map timestamp_us frames) ->
  nondecreasing_from prev (map timestamp_us frames) ->
  exists this' evs,
    deliver lib this frames tr = (Returned this', tr ++ evs)
    /\ total (write_durations evs) = last (map timestamp_us frames) prev - prev.
Proof.
  intros Hp Hbase Hrange Hmono.
  exists (stream_end this frames), (deliver_events lib this frames tr).
  split; [apply deliver_eq |].
  destruct (deliver_durations lib frames this tr prev _ _ Hbase (deliver_eq lib frames this tr))
    as [Hd _].
  rewrite Hd, (spec_durations_exact _ prev Hp Hrange Hmono).
  apply spec_durations_total.
Qed.

Lemma durations_add_up_to_last_timestamp_witness :
  int64_range 0
  /\ last_timestamp_us (constructed lib_lossy) = to_uint64 0
  /\ Forall int64_range (map timestamp_us (map frame_at [0; 33000; 66000]))
  /\ nondecreasing_from 0 (map timestamp_us (map frame_at [0; 33000; 66000]))
  /\ exists this' evs,
       deliver lib_lossy (constructed lib_lossy) (map frame_at [0; 33000; 66000]) [] =
         (Returned this', [] ++ evs)
       /\ total (write_durations evs) = 66000.
Proof.
  assert (H0 : int64_range 0) by (unfold int64_range; lia).
  assert (Hr : Forall int64_range (map timestamp_us (map frame_at [0; 33000; 66000])))
    by (repeat constructor; cbn; lia).
  assert (Hm : nondecreasing_from 0 (map timestamp_us (map frame_at [0; 33000; 66000])))
    by (cbn; lia).
  split; [exact H0 |]. split; [reflexivity |]. split; [exact Hr |]. split; [exact Hm |].
  exact (durations_add_up_to_last_timestamp lib_lossy (constructed lib_lossy)
           (map frame_at [0; 33000; 66000]) [] 0 H0 eq_refl Hr Hm).
Defined.

(** ** What the stream does not depend on *)

Lemma deliver_events_durations_any lib1 lib2 frames : forall this tr1 tr2,
  write_durations (deliver_events lib1 this frames tr1) =
  write_durations (deliver_events lib2 this frames tr2).
Proof.
  induction frames as [| f rest IH]; intros this tr1 tr2; [reflexivity |].
  cbn [deliver_events]. cbv zeta.
  rewrite !write_durations_app, !outputBuffer_events_durations.
  f_equal. apply IH.
Qed.

(** X8.  What is sent does not depend on how earlier writes went: with two
    native libraries that answer the writes differently, and after
    different histories, the same frames delivered to the same adapter
    give the same payloads, the same durations, the same session and the
    same final state. *)
Theorem stream_is_independent_of_write_results lib1 lib2 this frames tr1 tr2 :
  exists this' evs1 evs2,
    deliver lib1 this frames tr1 = (Returned this', tr1 ++ evs1)
    /\ deliver lib2 this frames tr2 = (Returned this', tr2 ++ evs2)
    /\ write_durations evs1 = write_durations evs2
    /\ write_payloads evs1 = write_payloads evs2
    /\ write_sessions evs1 = write_sessions evs2.
Proof.
  exists (stream_end this frames), (deliver_events lib1 this frames tr1),
         (deliver_events lib2 this frames tr2).
  split; [apply deliver_eq |]. split; [apply deliver_eq |].
  split; [apply deliver_events_durations_any |].
  split.
  - rewrite !deliver_events_payloads. reflexivity.
  - rewrite !deliver_events_sessions. reflexivity.
Qed.

(** X9.  The flags of a frame are never read: two streams whose frames
    agree on the buffer, the size and the timestamp give the same outcome
    and the same trace. *)
Theorem flags_are_ignored lib frames1 : forall frames2 this tr,
  Forall2 same_but_flags frames1 frames2 ->
  deliver lib this frames1 tr = deliver lib this frames2 tr.
Proof.
  induction frames1 as [| f rest IH]; intros frames2 this tr H;
    inversion H as [| f' g rest' rest2 Hfg Hrest]; subst; [reflexivity |].
  destruct Hfg as (Hm & Hs & Ht).
  cbn [deliver]. unfold bind. rewrite !outputBuffer_run.
  assert (Hadv : advance this f = advance this g)
    by (unfold advance; rewrite Ht; reflexivity).
  assert (Hevs : outputBuffer_events lib this f tr = outputBuffer_events lib this g tr)
    by (unfold outputBuffer_events; rewrite Hm, Hs, Ht; reflexivity).
  rewrite Hadv, Hevs. apply IH. exact Hrest.
Qed.

Lemma flags_are_ignored_witness :
  Forall2 same_but_flags
    [ {| mem := 65536; size := 1024; timestamp_us := 33000; flags := 1 |} ]
    [ frame_at 33000 ]
  /\ deliver lib_connected (constructed lib_connected)
       [ {| mem := 65536; size := 1024; timestamp_us := 33000; flags := 1 |} ] []
     = deliver lib_connected (constructed lib_connected) [ frame_at 33000 ] [].
Proof.
  assert (H : Forall2 same_but_flags
                [ {| mem := 65536; size := 1024; timestamp_us := 33000; flags := 1 |} ]
                [ frame_at 33000 ]).
  { constructor; [| constructor]. unfold same_but_flags. cbn. auto. }
  split; [exact H |].
  exact (flags_are_ignored lib_connected _ _ (constructed lib_connected) [] H).
Defined.

(** ** The earlier variant of the constructor *)

(** X10.  With the earlier constructor no run exits, whatever the
    negotiation returned: the session is acquired once, every frame is
    written, and the session is released once, by the last event. *)
Theorem earlier_variant_always_releases lib options frames :
  exists mid,
    run (Earlier.lifecycle lib options frames) =
      (Returned tt,
       EInit (eyecam_net_init lib) :: mid ++ [EDeinit (eyecam_net_init lib)])
    /\ count is_init mid = 0%nat
    /\ count is_deinit mid = 0%nat
    /\ count is_exit mid = 0%nat
    /\ write_payloads mid = map (fun f => (mem f, size f)) frames.
Proof.
  rewrite earlier_lifecycle_run.
  destruct (construction_events_head lib options) as (cevs & Hce & Hi & Hd & Hw & Hx).
  exists (cevs ++ deliver_events lib (constructed lib) frames
                    (construction_events lib options)).
  split.
  { rewrite Hce at 1. cbn [app]. rewrite <- app_assoc. reflexivity. }
  rewrite !count_app, Hi, Hd, Hx.
  rewrite (frame_events_count is_init _ frame_event_not_init
             (deliver_events_frame lib frames _ _)).
  rewrite (frame_events_count is_deinit _ frame_event_not_deinit
             (deliver_events_frame lib frames _ _)).
  rewrite (frame_events_count is_exit _ frame_event_not_exit
             (deliver_events_frame lib frames _ _)).
  repeat split.
  rewrite write_payloads_app, deliver_events_payloads.
  rewrite count_writes_payloads in Hw.
  destruct (write_payloads cevs); [reflexivity | discriminate].
Qed.

(** X11.  The two variants of the constructor give the same run -- the
    same outcome and the same trace -- exactly when negotiation does not
    fail: they differ only when the codec is "h264" and
    [eyecam_net_wait_for_connection] returns 0. *)
Theorem variants_agree_unless_negotiation_fails lib options frames :
  run (Earlier.lifecycle lib options frames) = run (lifecycle lib options frames)
  <-> ~ (codec options = "h264" /\ negotiation_result lib options = 0).
Proof.
  split.
  - intros Heq [Hc Hr].
    rewrite earlier_lifecycle_run, (lifecycle_refused lib options frames Hc Hr) in Heq.
    discriminate.
  - intros Hn.
    rewrite earlier_lifecycle_run, (lifecycle_returns_unless_refused lib options frames Hn).
    reflexivity.
Qed.

Lemma variants_agree_unless_negotiation_fails_witness :
  ~ (codec options_mjpeg = "h264" /\ negotiation_result lib_refused options_mjpeg = 0)
  /\ run (Earlier.lifecycle lib_refused options_mjpeg (map frame_at [0; 33000]))
     = run (lifecycle lib_refused options_mjpeg (map frame_at [0; 33000])).
Proof.
  assert (H : ~ (codec options_mjpeg = "h264"
                 /\ negotiation_result lib_refused options_mjpeg = 0))
    by (intros [Hc _]; discriminate).
  split; [exact H |].
  exact (proj2 (variants_agree_unless_negotiation_fails lib_refused options_mjpeg
                  (map frame_at [0; 33000])) H).
Defined.
